(** * openFrameworks base types: the contract layer of [ofBaseTypes.h]

    The header declares abstract classes.  A class is embedded as the
    collection of its virtual methods over an explicit object state; a
    method with an inline body in the header is embedded as a function
    written over those methods, so that every call it makes on [this]
    is a call of the corresponding method of the instance. *)

From Stdlib Require Import ZArith QArith Qround List String Bool Lia.
From Stdlib Require Import Floats.SpecFloat.
Import ListNotations.

Set Implicit Arguments.

(** ** C++ scalars *)

(** [float] is IEEE-754 binary32: 24 bits of precision, exponents below 128. *)
Definition float : Type := spec_float.

Module CFloat.

Definition prec : Z := 24.
Definition emax : Z := 128.

(** An integer literal converted to [float] (round to nearest even). *)
Definition of_Z (z : Z) : float := binary_normalize prec emax z 0 false.

(** [a == b] on floats. *)
Definition eqb (a b : float) : bool := SFeqb a b.

End CFloat.

(** A C++ pointer: [nullptr] or the address of an object. *)
Inductive pointer (A : Type) : Type :=
| nullptr : pointer A
| address_of : A -> pointer A.
Arguments nullptr {A}.
Arguments address_of {A} _.

(** How a call of a method leaves: by [return], or by a [throw]. *)
Inductive completion (A : Type) : Type :=
| Returned : A -> completion A
| Thrown : string -> completion A.
Arguments Returned {A} _.
Arguments Thrown {A} _.

(** ** Value types taken from the headers [ofBaseTypes.h] includes *)

(** [ofVec3f], of which [ofPoint] is a typedef. *)
Record ofVec3f : Type := mkVec3f { vx : float; vy : float; vz : float }.
Definition ofPoint : Type := ofVec3f.

Record ofRectangle : Type :=
  mkRectangle { rect_x : float; rect_y : float; rect_width : float; rect_height : float }.

(** The render modes the header lists for [ofPolyRenderMode]. *)
Inductive ofPolyRenderMode : Type := OF_MESH_POINTS | OF_MESH_WIREFRAME | OF_MESH_FILL.

(** The matrix modes the header lists for [ofMatrixMode]. *)
Inductive ofMatrixMode : Type := OF_MATRIX_MODELVIEW | OF_MATRIX_PROJECTION | OF_MATRIX_TEXTURE.

Inductive ofLoopType : Type := OF_LOOP_NONE | OF_LOOP_PALINDROME | OF_LOOP_NORMAL.

(** What the renderer reads of an [ofMesh]: its vertex data, and the three
    capabilities it declares through [usingColors()], [usingTextures()]
    and [usingNormals()]. *)
Record ofMesh : Type := mkMesh {
  meshVertices : list ofVec3f;
  usingColors : bool;
  usingTextures : bool;
  usingNormals : bool
}.

(** An [ofPath], as the outline it holds. *)
Record ofPath : Type := mkPath { pathOutline : list ofPoint }.

(** ** ofBaseDraws *)

Module Draws.

Section WithCanvas.

(** Whatever a [draw] call renders onto. *)
Variable Canvas : Type.

(** An object of a class derived from [ofBaseDraws].  The pure virtual
    methods [draw(float,float)], [getWidth()] and [getHeight()] are given by
    the derived class.  [draw(float,float,float,float)] is virtual with a
    body: [overrides_draw_xywh] is the derived class's override when there is
    one, and [None] when the class inherits the body of [ofBaseDraws]. *)
Record ofBaseDraws : Type := mkBaseDraws {
  draw_xy : float -> float -> Canvas -> Canvas;
  getWidth : float;
  getHeight : float;
  overrides_draw_xywh : option (float -> float -> float -> float -> Canvas -> Canvas)
}.

(** The virtual call [this->draw(x, y, w, h)].  An override runs as given.
    The inherited body is

      [draw(x, y, getWidth(), getHeight());]

    a call with four [float] arguments, hence a virtual call of this same
    method.  [fuel] bounds the depth of nested calls; [None] means the bound
    was reached before the call returned. *)
Fixpoint draw_xywh (fuel : nat) (this : ofBaseDraws) (x y w h : float) (c : Canvas)
  : option Canvas :=
  match overrides_draw_xywh this with
  | Some body => Some (body x y w h c)
  | None =>
      match fuel with
      | O => None
      | S fuel' => draw_xywh fuel' this x y (getWidth this) (getHeight this) c
      end
  end.

(** [draw(const ofPoint & point)]: [draw(point.x, point.y);] *)
Definition draw_point (this : ofBaseDraws) (point : ofPoint) (c : Canvas) : Canvas :=
  draw_xy this (vx point) (vy point) c.

(** [draw(const ofRectangle & rect)]:
    [draw(rect.x, rect.y, rect.width, rect.height);] *)
Definition draw_rect (fuel : nat) (this : ofBaseDraws) (rect : ofRectangle) (c : Canvas)
  : option Canvas :=
  draw_xywh fuel this (rect_x rect) (rect_y rect) (rect_width rect) (rect_height rect) c.

(** [draw(const ofPoint & point, float w, float h)]:
    [draw(point.x, point.y, w, h);] *)
Definition draw_point_wh (fuel : nat) (this : ofBaseDraws) (point : ofPoint) (w h : float)
  (c : Canvas) : option Canvas :=
  draw_xywh fuel this (vx point) (vy point) w h c.

(** [setAnchorPercent(float xPct, float yPct)]: [{}].  The method is not
    [const]; the object is passed through. *)
Definition setAnchorPercent (xPct yPct : float) (this : ofBaseDraws) : ofBaseDraws := this.

(** [setAnchorPoint(float x, float y)]: [{}] *)
Definition setAnchorPoint (x y : float) (this : ofBaseDraws) : ofBaseDraws := this.

(** [resetAnchor()]: [{}] *)
Definition resetAnchor (this : ofBaseDraws) : ofBaseDraws := this.

(** The anchor calls made on an object that inherits the three bodies. *)
Inductive anchorCall : Type :=
| SetAnchorPercent (xPct yPct : float)
| SetAnchorPoint (x y : float)
| ResetAnchor.

Definition anchored (a : anchorCall) (this : ofBaseDraws) : ofBaseDraws :=
  match a with
  | SetAnchorPercent xPct yPct => setAnchorPercent xPct yPct this
  | SetAnchorPoint x y => setAnchorPoint x y this
  | ResetAnchor => resetAnchor this
  end.

Definition anchoredAll (calls : list anchorCall) (this : ofBaseDraws) : ofBaseDraws :=
  fold_left (fun object a => anchored a object) calls this.

End WithCanvas.

(** A canvas that records each quad rendered onto it: position and size. *)
Definition quad : Type := (float * float * float * float)%type.

(** A 640 by 480 image that inherits every body [ofBaseDraws] provides; its
    [draw(x, y)] renders it at its native size. *)
Definition plainImage : ofBaseDraws (list quad) :=
  {| draw_xy := fun x y c => (x, y, CFloat.of_Z 640, CFloat.of_Z 480) :: c;
     getWidth := CFloat.of_Z 640;
     getHeight := CFloat.of_Z 480;
     overrides_draw_xywh := None |}.

(** The same image in a class that overrides [draw(x, y, w, h)]. *)
Definition scalableImage : ofBaseDraws (list quad) :=
  {| draw_xy := fun x y c => (x, y, CFloat.of_Z 640, CFloat.of_Z 480) :: c;
     getWidth := CFloat.of_Z 640;
     getHeight := CFloat.of_Z 480;
     overrides_draw_xywh := Some (fun x y w h c => (x, y, w, h) :: c) |}.

End Draws.

(** ** ofBaseVideoGrabber and ofBaseVideoPlayer *)

Module Video.

(** An [ofTexture], as the name of the texture object it holds. *)
Record ofTexture : Type := mkTexture { textureID : N }.

(** [ofBaseVideoGrabber::getTexturePtr()]: [{ return nullptr; }].  The method
    is not [const]; the state of the grabber is passed through. *)
Definition ofBaseVideoGrabber_getTexturePtr {G : Type} (this : G)
  : completion (pointer ofTexture * G) :=
  Returned (nullptr, this).

(** The [const] pure virtual queries of [ofBaseVideoPlayer], over the state
    [P] of a concrete player. *)
Class ofBaseVideoPlayer (P : Type) : Type := {
  isPaused : P -> bool;
  isLoaded : P -> bool;
  isPlaying : P -> bool
}.

(** [ofBaseVideoPlayer::getTexturePtr()]: [{ return nullptr; }] *)
Definition ofBaseVideoPlayer_getTexturePtr {P : Type} (this : P)
  : completion (pointer ofTexture * P) :=
  Returned (nullptr, this).

(** [ofBaseVideoPlayer::isInitialized() const]: [{ return isLoaded(); }] *)
Definition isInitialized {P : Type} `{ofBaseVideoPlayer P} (this : P) : bool :=
  isLoaded this.

End Video.

(** ** The video player state machine *)

Module PlayerModel.

Local Open Scope Z_scope.

Inductive transportMode : Type := Playing | Paused.

(** The transport state of a loaded player.  Frames are numbered from 0 to
    [lastFrame], which is the total number of frames less one. *)
Record transport : Type := mkTransport {
  lastFrame : Z;
  frame : Z;
  mode : transportMode;
  loopState : ofLoopType;
  speed : Q;
  volume : Q;
  forward : bool;
  movieDone : bool
}.

(** Modelled from the spec: the concrete video players, which implement the
    pure virtual [load], [play], [stop], [isLoaded], [isPlaying] and override
    the transport methods of [ofBaseVideoPlayer], are not in the header.  The
    states are those of the specification: Unloaded, Loading (reached
    through [loadAsync] only) and Loaded, playing or paused. *)
Inductive player : Type :=
| Unloaded : player
| Loading : string -> player
| Loaded : transport -> player.

(** What the backend finds when it opens a resource: nothing it can play, or
    a video with so many frames. *)
Definition resource : Type := option positive.

Definition loadSucceeds (r : resource) : bool :=
  match r with Some _ => true | None => false end.

(** Modelled from the spec: the state a successful [load] leaves, which the
    concrete players decide: first frame, position 0, not playing. *)
Definition freshlyLoaded (totalFrames : positive) : transport :=
  {| lastFrame := Z.pos totalFrames - 1; frame := 0; mode := Paused;
     loopState := OF_LOOP_NORMAL; speed := 1%Q; volume := 1%Q;
     forward := true; movieDone := false |}.

Definition opened (r : resource) : player :=
  match r with
  | Some totalFrames => Loaded (freshlyLoaded totalFrames)
  | None => Unloaded
  end.

(** Modelled from the spec: the looping rules of the concrete players.
    Loop mode none: a target past either end stops at that end. *)
Definition clamp (last target : Z) : Z := Z.max 0 (Z.min last target).

(** Loop mode normal: the playhead wraps from one end to the other. *)
Definition wrap (last target : Z) : Z := target mod (last + 1).

(** Loop mode palindrome: the playhead travels [0 .. last .. 0] back and
    forth.  [unfolded] is the distance travelled along that round trip, and
    [fold] gives back the frame and whether travel is forward there. *)
Definition unfolded (last f : Z) (fwd : bool) : Z :=
  if fwd then f else 2 * last - f.

Definition fold (last u : Z) : Z * bool :=
  if last <=? 0 then (0, true)
  else
    let r := u mod (2 * last) in
    if r <=? last then (r, true) else (2 * last - r, false).

(** Modelled from the spec: where a manual seek to frame [target] puts the
    playhead; the seek methods have no body in the header. *)
Definition seekFrame (t : transport) (target : Z) : Z :=
  match loopState t with
  | OF_LOOP_NONE => clamp (lastFrame t) target
  | OF_LOOP_NORMAL => wrap (lastFrame t) target
  | OF_LOOP_PALINDROME => fst (fold (lastFrame t) target)
  end.

(** A manual seek moves the playhead and leaves play/pause as it is. *)
Definition seek (t : transport) (target : Z) : transport :=
  {| lastFrame := lastFrame t; frame := seekFrame t target; mode := mode t;
     loopState := loopState t; speed := speed t; volume := volume t;
     forward := forward t; movieDone := movieDone t |}.

(** Rounding to the nearest integer. *)
Definition round (q : Q) : Z := Qfloor (q + (1 # 2))%Q.

(** Modelled from the spec: playback advancement over [dt] frame durations
    at the current speed, which the concrete players do in [update()].  Mode
    none halts at the boundary and marks the movie done, normal wraps,
    palindrome reverses the direction and travels at the magnitude of the
    speed. *)
Definition advance (t : transport) (dt : Q) : transport :=
  match loopState t with
  | OF_LOOP_NONE =>
      let target := frame t + Qfloor (speed t * dt)%Q in
      {| lastFrame := lastFrame t; frame := clamp (lastFrame t) target; mode := mode t;
         loopState := loopState t; speed := speed t; volume := volume t;
         forward := forward t;
         movieDone := movieDone t || (target <? 0) || (lastFrame t <? target) |}
  | OF_LOOP_NORMAL =>
      let target := frame t + Qfloor (speed t * dt)%Q in
      {| lastFrame := lastFrame t; frame := wrap (lastFrame t) target; mode := mode t;
         loopState := loopState t; speed := speed t; volume := volume t;
         forward := forward t; movieDone := movieDone t |}
  | OF_LOOP_PALINDROME =>
      let travel := Z.abs (Qfloor (speed t * dt)%Q) in
      let there := fold (lastFrame t) (unfolded (lastFrame t) (frame t) (forward t) + travel) in
      {| lastFrame := lastFrame t; frame := fst there; mode := mode t;
         loopState := loopState t; speed := speed t; volume := volume t;
         forward := snd there; movieDone := movieDone t |}
  end.

(** The operations on a player.  [Load] and [AsyncLoadCompletes] carry what
    the backend finds; [Update] carries the time elapsed since the previous
    update, in frame durations. *)
Inductive op : Type :=
| Load (name : string) (found : resource)
| LoadAsync (name : string)
| AsyncLoadCompletes (found : resource)
| Play
| Stop
| SetPaused (bPause : bool)
| SetPosition (pct : Q)
| SetFrame (f : Z)
| FirstFrame
| NextFrame
| PreviousFrame
| SetLoopState (state : ofLoopType)
| SetSpeed (v : Q)
| SetVolume (v : Q)
| Update (dt : Q)
| Close.

(** Modelled from the spec: what an operation does to a loaded player;
    [play], [stop] are pure virtual and the other transport methods have no
    body in the header.  [play] starts playing, [setPaused] pauses or
    resumes and keeps the position, [stop] pauses on the first frame, the
    seeks move the playhead only, and loop state, speed and volume are plain
    parameters. *)
Definition onLoaded (o : op) (t : transport) : transport :=
  match o with
  | Play =>
      {| lastFrame := lastFrame t; frame := frame t; mode := Playing;
         loopState := loopState t; speed := speed t; volume := volume t;
         forward := forward t; movieDone := movieDone t |}
  | Stop =>
      {| lastFrame := lastFrame t; frame := 0; mode := Paused;
         loopState := loopState t; speed := speed t; volume := volume t;
         forward := forward t; movieDone := movieDone t |}
  | SetPaused bPause =>
      {| lastFrame := lastFrame t; frame := frame t;
         mode := if bPause then Paused else Playing;
         loopState := loopState t; speed := speed t; volume := volume t;
         forward := forward t; movieDone := movieDone t |}
  | SetPosition pct => seek t (round (pct * inject_Z (lastFrame t))%Q)
  | SetFrame f => seek t f
  | FirstFrame => seek t 0
  | NextFrame => seek t (frame t + 1)
  | PreviousFrame => seek t (frame t - 1)
  | SetLoopState state =>
      {| lastFrame := lastFrame t; frame := frame t; mode := mode t;
         loopState := state; speed := speed t; volume := volume t;
         forward := forward t; movieDone := movieDone t |}
  | SetSpeed v =>
      {| lastFrame := lastFrame t; frame := frame t; mode := mode t;
         loopState := loopState t; speed := v; volume := volume t;
         forward := forward t; movieDone := movieDone t |}
  | SetVolume v =>
      {| lastFrame := lastFrame t; frame := frame t; mode := mode t;
         loopState := loopState t; speed := speed t; volume := v;
         forward := forward t; movieDone := movieDone t |}
  | Update dt =>
      match mode t with
      | Playing => advance t dt
      | Paused => t
      end
  | Load _ _ | LoadAsync _ | AsyncLoadCompletes _ | Close => t
  end.

(** Modelled from the spec: the transitions of the video player, which the
    header leaves to the concrete players.  [None] is a transition the
    specification does not define: [load] and [loadAsync] start from
    Unloaded, and an asynchronous load completes from Loading.  Transport
    operations before a successful load are no-ops. *)
Definition step (o : op) (p : player) : option player :=
  match o, p with
  | Load _ found, Unloaded => Some (opened found)
  | Load _ _, _ => None
  | LoadAsync name, Unloaded => Some (Loading name)
  | LoadAsync _, _ => None
  | AsyncLoadCompletes found, Loading _ => Some (opened found)
  | AsyncLoadCompletes _, _ => None
  | Close, _ => Some Unloaded
  | _, Loaded t => Some (Loaded (onLoaded o t))
  | _, _ => Some p
  end.

(** Modelled from the spec: [load(name)], pure virtual in the header: the
    transition, with the success or failure the call returns. *)
Definition load (name : string) (found : resource) (p : player) : option (bool * player) :=
  match step (Load name found) p with
  | Some p' => Some (loadSucceeds found, p')
  | None => None
  end.

Fixpoint run (ops : list op) (p : player) : option player :=
  match ops with
  | [] => Some p
  | o :: rest =>
      match step o p with
      | Some p' => run rest p'
      | None => None
      end
  end.

(** The operations that act on the transport of a loaded player: all but
    loading and closing. *)
Definition transportOp (o : op) : bool :=
  match o with
  | Load _ _ | LoadAsync _ | AsyncLoadCompletes _ | Close => false
  | _ => true
  end.

(** Modelled from the spec: the pure virtual queries [isPaused],
    [isLoaded] and [isPlaying] on the states of the specification. *)
#[global] Instance player_queries : Video.ofBaseVideoPlayer player := {|
  Video.isPaused := fun p =>
    match p with Loaded t => match mode t with Paused => true | Playing => false end
               | _ => false end;
  Video.isLoaded := fun p => match p with Loaded _ => true | _ => false end;
  Video.isPlaying := fun p =>
    match p with Loaded t => match mode t with Playing => true | Paused => false end
               | _ => false end
|}.

(** Modelled from the spec: [getPosition()], declared in the header without
    a body: the playhead as a fraction of the way from the first frame to the
    last, the normalized form of the frame index; 0 when no video is
    loaded. *)
Definition getPosition (p : player) : Q :=
  match p with
  | Loaded t =>
      if lastFrame t <=? 0 then 0%Q else Qmake (frame t) (Z.to_pos (lastFrame t))
  | _ => 0%Q
  end.

(** Modelled from the spec: [getCurrentFrame()], declared without a body. *)
Definition getCurrentFrame (p : player) : Z :=
  match p with Loaded t => frame t | _ => 0 end.

(** The playhead of a loaded player is on a frame of the video. *)
Definition onAFrame (t : transport) : Prop := 0 <= frame t <= lastFrame t.

Definition wellFormed (p : player) : Prop :=
  match p with
  | Loaded t => onAFrame t
  | _ => True
  end.

(** A session with a 25-frame clip: seeks past both ends, playback in
    palindrome and in no-loop mode, forwards and backwards. *)
Definition session : list op :=
  [ Load "clip.mov" (Some 25%positive);
    SetLoopState OF_LOOP_PALINDROME; Play; Update (61 # 2);
    SetPosition (3 # 2); NextFrame;
    SetLoopState OF_LOOP_NONE; SetSpeed (- (2))%Q; Update 40%Q;
    SetFrame (-7); PreviousFrame; SetPaused true ].

(** A clip paused on frame 17 of 25, and what is done to it between
    [play()] and [stop()]. *)
Definition midClip : transport :=
  {| lastFrame := 24; frame := 17; mode := Paused; loopState := OF_LOOP_NORMAL;
     speed := (3 # 2)%Q; volume := 1%Q; forward := true; movieDone := false |}.

Definition scrubbing : list op :=
  [ SetPosition (1 # 3); Update 30%Q; NextFrame; SetPaused true; SetFrame 100;
    SetPaused false; Update (5 # 2) ].

End PlayerModel.

(** ** ofBaseRenderer *)

Module Renderer.

(** The pure virtual methods of [ofBaseRenderer] that the bodies and the
    default arguments in the header refer to, over the state [R] of a
    concrete renderer.  A [void] method is its effect on that state. *)
Class ofBaseRenderer (R : Type) : Type := {
  (** [draw(const ofPath & shape) const] *)
  draw_path : ofPath -> R -> R;
  (** [draw(const ofMesh &, ofPolyRenderMode, bool useColors, bool useTextures, bool useNormals) const] *)
  draw_mesh_using : ofMesh -> ofPolyRenderMode -> bool -> bool -> bool -> R -> R;
  (** [setupScreenPerspective(width, height, fov, nearDist, farDist)] *)
  setupScreenPerspective : float -> float -> float -> float -> float -> R -> R;
  (** [setupScreenOrtho(width, height, nearDist, farDist)] *)
  setupScreenOrtho : float -> float -> float -> float -> R -> R;
  pushMatrix : R -> R;
  popMatrix : R -> R;
  (** [translate(float x, float y, float z)] *)
  translate : float -> float -> float -> R -> R
}.

(** The argument a call passes in position [i]: the one written at the call
    site when there is one, the default of the declaration otherwise.  The
    arguments written at a call site are a prefix of the parameters. *)
Definition argument (given : list float) (i : nat) (default : float) : float :=
  nth i given default.

Section Bodies.

Context {R : Type} `{ofBaseRenderer R}.

(** [draw(const ofPath & shape, float x, float y) const]:

      [pushMatrix(); translate(x,y); draw(shape); popMatrix();]

    [translate(x,y)] is [translate(float x, float y, float z = 0)]. *)
Definition draw_path_at (shape : ofPath) (x y : float) (this : R) : R :=
  let this := pushMatrix this in
  let this := translate x y (CFloat.of_Z 0) this in
  let this := draw_path shape this in
  popMatrix this.

(** [draw(const ofMesh & mesh, ofPolyRenderMode renderType) const]:

      [draw(mesh,renderType,mesh.usingColors(),mesh.usingTextures(),mesh.usingNormals());] *)
Definition draw_mesh (mesh : ofMesh) (renderType : ofPolyRenderMode) (this : R) : R :=
  draw_mesh_using mesh renderType
    (usingColors mesh) (usingTextures mesh) (usingNormals mesh) this.

(** A call [setupScreenPerspective(...)], declared as
    [(float width = -1, float height = -1, float fov = 60, float nearDist = 0, float farDist = 0)]. *)
Definition call_setupScreenPerspective (given : list float) (this : R) : R :=
  setupScreenPerspective
    (argument given 0 (CFloat.of_Z (-1)))
    (argument given 1 (CFloat.of_Z (-1)))
    (argument given 2 (CFloat.of_Z 60))
    (argument given 3 (CFloat.of_Z 0))
    (argument given 4 (CFloat.of_Z 0))
    this.

(** A call [setupScreenOrtho(...)], declared as
    [(float width = -1, float height = -1, float nearDist = -1, float farDist = 1)]. *)
Definition call_setupScreenOrtho (given : list float) (this : R) : R :=
  setupScreenOrtho
    (argument given 0 (CFloat.of_Z (-1)))
    (argument given 1 (CFloat.of_Z (-1)))
    (argument given 2 (CFloat.of_Z (-1)))
    (argument given 3 (CFloat.of_Z 1))
    this.

End Bodies.

(** *** The renderer that records the calls it receives *)

Inductive call : Type :=
| Call_draw_path (shape : ofPath)
| Call_draw_mesh_using (mesh : ofMesh) (renderType : ofPolyRenderMode)
    (useColors useTextures useNormals : bool)
| Call_setupScreenPerspective (width height fov nearDist farDist : float)
| Call_setupScreenOrtho (width height nearDist farDist : float)
| Call_pushMatrix
| Call_popMatrix
| Call_translate (x y z : float).

Definition received (c : call) (log : list call) : list call := log ++ [c].

#[global] Instance recorder : ofBaseRenderer (list call) := {|
  draw_path := fun shape => received (Call_draw_path shape);
  draw_mesh_using := fun mesh renderType c t n =>
    received (Call_draw_mesh_using mesh renderType c t n);
  setupScreenPerspective := fun w h fov n f =>
    received (Call_setupScreenPerspective w h fov n f);
  setupScreenOrtho := fun w h n f => received (Call_setupScreenOrtho w h n f);
  pushMatrix := received Call_pushMatrix;
  popMatrix := received Call_popMatrix;
  translate := fun x y z => received (Call_translate x y z)
|}.

(** *** Sequences of calls on the bodies the header provides *)

Inductive request : Type :=
| DrawPathAt (shape : ofPath) (x y : float)
| DrawMesh (mesh : ofMesh) (renderType : ofPolyRenderMode).

Section Requests.

Context {R : Type} `{ofBaseRenderer R}.

Definition serve (q : request) (this : R) : R :=
  match q with
  | DrawPathAt shape x y => draw_path_at shape x y this
  | DrawMesh mesh renderType => draw_mesh mesh renderType this
  end.

Definition serveAll (requests : list request) (this : R) : R :=
  fold_left (fun r q => serve q r) requests this.



End Requests.

(** [openPushes d log]: the [pushMatrix] calls still open after the calls of
    [log], when [d] were open before; [None] when a [popMatrix] in [log] has
    no [pushMatrix] to match. *)
Fixpoint openPushes (d : nat) (log : list call) : option nat :=
  match log with
  | [] => Some d
  | Call_pushMatrix :: rest => openPushes (S d) rest
  | Call_popMatrix :: rest =>
      match d with
      | O => None
      | S d' => openPushes d' rest
      end
  | _ :: rest => openPushes d rest
  end.

(** The calls that hand something to the backend to draw. *)
Definition isDraw (c : call) : bool :=
  match c with
  | Call_draw_path _ | Call_draw_mesh_using _ _ _ _ _ => true
  | _ => false
  end.

Definition isTranslate (c : call) : bool :=
  match c with
  | Call_translate _ _ _ => true
  | _ => false
  end.

(** What the requests ask to be drawn and where, read off the requests
    alone. *)
Definition requestedDraw (q : request) : call :=
  match q with
  | DrawPathAt shape _ _ => Call_draw_path shape
  | DrawMesh mesh renderType =>
      Call_draw_mesh_using mesh renderType
        (usingColors mesh) (usingTextures mesh) (usingNormals mesh)
  end.

Definition requestedOffset (q : request) : list call :=
  match q with
  | DrawPathAt _ x y => [Call_translate x y (CFloat.of_Z 0)]
  | DrawMesh _ _ => []
  end.

(** The defaults of the two screen setups, in parameter order, and the
    argument list of a call: what is written, then the defaults of the
    parameters left out. *)
Definition perspectiveDefaults : list float :=
  [CFloat.of_Z (-1); CFloat.of_Z (-1); CFloat.of_Z 60; CFloat.of_Z 0; CFloat.of_Z 0].

Definition orthoDefaults : list float :=
  [CFloat.of_Z (-1); CFloat.of_Z (-1); CFloat.of_Z (-1); CFloat.of_Z 1].

Definition completed (given defaults : list float) : list float :=
  given ++ skipn (List.length given) defaults.

(** Some requests, and a log with one push open. *)
Definition sampleRequests : list request :=
  [ DrawPathAt (mkPath []) (CFloat.of_Z 100) (CFloat.of_Z 50);
    DrawMesh (mkMesh [] true false true) OF_MESH_WIREFRAME;
    DrawPathAt (mkPath [mkVec3f (CFloat.of_Z 1) (CFloat.of_Z 2) (CFloat.of_Z 3)])
      (CFloat.of_Z (-4)) (CFloat.of_Z 0) ].

Definition sampleLog : list call :=
  [ Call_pushMatrix; Call_translate (CFloat.of_Z 5) (CFloat.of_Z 5) (CFloat.of_Z 0) ].

End Renderer.

(** ** The matrix stacks of a renderer *)

Module MatrixStack.

(** The operations of [ofMatrix4x4.h] the renderer uses; the header is not
    part of this file, so they are a parameter of the model. *)
Class ofMatrix4x4_ops (M : Type) : Type := {
  newIdentityMatrix : M;
  newTranslationMatrix : float -> float -> float -> M;
  newScaleMatrix : float -> float -> float -> M;
  newRotationMatrix : float -> float -> float -> float -> M;
  newPerspectiveMatrix : float -> float -> float -> float -> float -> M;
  newOrthoMatrix : float -> float -> float -> float -> M;
  matrix_mult : M -> M -> M
}.

Section WithMatrix.

Context {M : Type} `{ofMatrix4x4_ops M}.

(** Modelled from the spec: the matrix stack, which the concrete renderers
    keep behind the pure virtual [pushMatrix] and [popMatrix].  A stack is
    never empty: [top] is the current matrix and [saved] are the entries
    beneath it, most recent first. *)
Record stack : Type := mkStack { top : M; saved : list M }.

Definition depth (s : stack) : nat := S (List.length (saved s)).

(** The transform calls, which act on the current matrix. *)
Inductive transform : Type :=
| Translate (x y z : float)
| Scale (xAmnt yAmnt zAmnt : float)
| Rotate (degrees vecX vecY vecZ : float)
| RotateX (degrees : float)
| RotateY (degrees : float)
| RotateZ (degrees : float)
| RotateDeg (degrees : float)
| LoadIdentityMatrix
| LoadMatrix (m : M)
| MultMatrix (m : M).

Definition zero : float := CFloat.of_Z 0.
Definition one : float := CFloat.of_Z 1.

(** Modelled from the spec: translate, scale and rotate compose onto the
    current matrix by right-multiplication; [rotate(degrees)] with no axis is
    a rotation about the Z axis. *)
Definition transformed (t : transform) (m : M) : M :=
  match t with
  | Translate x y z => matrix_mult m (newTranslationMatrix x y z)
  | Scale x y z => matrix_mult m (newScaleMatrix x y z)
  | Rotate d x y z => matrix_mult m (newRotationMatrix d x y z)
  | RotateX d => matrix_mult m (newRotationMatrix d one zero zero)
  | RotateY d => matrix_mult m (newRotationMatrix d zero one zero)
  | RotateZ d => matrix_mult m (newRotationMatrix d zero zero one)
  | RotateDeg d => matrix_mult m (newRotationMatrix d zero zero one)
  | LoadIdentityMatrix => newIdentityMatrix
  | LoadMatrix m' => m'
  | MultMatrix m' => matrix_mult m m'
  end.

(** Modelled from the spec: push copies the top. *)
Definition push (s : stack) : stack :=
  {| top := top s; saved := top s :: saved s |}.

(** Modelled from the spec: pop discards the top; a pop with nothing pushed
    is rejected. *)
Definition pop (s : stack) : option stack :=
  match saved s with
  | [] => None
  | m :: rest => Some {| top := m; saved := rest |}
  end.

Definition onTop (f : M -> M) (s : stack) : stack :=
  {| top := f (top s); saved := saved s |}.

(** What has been handed to the backend: the primitive, with the model-view
    and projection matrices current at that time. *)
Inductive primitive : Type :=
| PathPrimitive (shape : ofPath)
| MeshPrimitive (mesh : ofMesh) (renderType : ofPolyRenderMode)
    (useColors useTextures useNormals : bool).

Record drawn : Type := mkDrawn { what : primitive; modelviewThen : M; projectionThen : M }.

(** Modelled from the spec: the state of a renderer, one matrix stack per
    matrix mode and the mode last selected by [matrixMode()]. *)
Record renderer : Type := mkRenderer {
  currentMode : ofMatrixMode;
  modelview : stack;
  projection : stack;
  texture : stack;
  output : list drawn
}.

Definition stackOf (mode : ofMatrixMode) (r : renderer) : stack :=
  match mode with
  | OF_MATRIX_MODELVIEW => modelview r
  | OF_MATRIX_PROJECTION => projection r
  | OF_MATRIX_TEXTURE => texture r
  end.

Definition withStack (mode : ofMatrixMode) (s : stack) (r : renderer) : renderer :=
  match mode with
  | OF_MATRIX_MODELVIEW =>
      {| currentMode := currentMode r; modelview := s; projection := projection r;
         texture := texture r; output := output r |}
  | OF_MATRIX_PROJECTION =>
      {| currentMode := currentMode r; modelview := modelview r; projection := s;
         texture := texture r; output := output r |}
  | OF_MATRIX_TEXTURE =>
      {| currentMode := currentMode r; modelview := modelview r;
         projection := projection r; texture := s; output := output r |}
  end.

Definition currentStack (r : renderer) : stack := stackOf (currentMode r) r.

Definition getCurrentMatrix (mode : ofMatrixMode) (r : renderer) : M :=
  top (stackOf mode r).

(** Modelled from the spec: [pushMatrix], [popMatrix] and the transforms
    work on the stack of the matrix mode last selected. *)
Definition pushMatrix (r : renderer) : renderer :=
  withStack (currentMode r) (push (currentStack r)) r.

Definition popMatrix (r : renderer) : option renderer :=
  match pop (currentStack r) with
  | Some s => Some (withStack (currentMode r) s r)
  | None => None
  end.

Definition transformMatrix (t : transform) (r : renderer) : renderer :=
  withStack (currentMode r) (onTop (transformed t) (currentStack r)) r.

Definition matrixMode (mode : ofMatrixMode) (r : renderer) : renderer :=
  {| currentMode := mode; modelview := modelview r; projection := projection r;
     texture := texture r; output := output r |}.

(** Modelled from the spec: a draw overload hands its argument to the
    backend under the current top-of-stack matrices and leaves the renderer
    state as it is. *)
Definition draw (p : primitive) (r : renderer) : renderer :=
  {| currentMode := currentMode r; modelview := modelview r;
     projection := projection r; texture := texture r;
     output := {| what := p; modelviewThen := top (modelview r);
                  projectionThen := top (projection r) |} :: output r |}.

(** Modelled from the spec: the screen setups compute the projection matrix
    and load it. *)
Definition loadProjection (m : M) (r : renderer) : renderer :=
  withStack OF_MATRIX_PROJECTION (onTop (fun _ => m) (projection r)) r.

(** A renderer before any call: identity matrices, nothing pushed. *)
Definition newRenderer : renderer :=
  {| currentMode := OF_MATRIX_MODELVIEW;
     modelview := {| top := newIdentityMatrix; saved := [] |};
     projection := {| top := newIdentityMatrix; saved := [] |};
     texture := {| top := newIdentityMatrix; saved := [] |};
     output := [] |}.

(** Sequences of matrix calls. *)
Inductive matrixCall : Type :=
| PushMatrix
| PopMatrix
| Transform (t : transform).

Definition stackCall (c : matrixCall) (s : stack) : option stack :=
  match c with
  | PushMatrix => Some (push s)
  | PopMatrix => pop s
  | Transform t => Some (onTop (transformed t) s)
  end.

Fixpoint stackRun (calls : list matrixCall) (s : stack) : option stack :=
  match calls with
  | [] => Some s
  | c :: rest =>
      match stackCall c s with
      | Some s' => stackRun rest s'
      | None => None
      end
  end.

Definition perform (c : matrixCall) (r : renderer) : option renderer :=
  match c with
  | PushMatrix => Some (pushMatrix r)
  | PopMatrix => popMatrix r
  | Transform t => Some (transformMatrix t r)
  end.

Fixpoint run (calls : list matrixCall) (r : renderer) : option renderer :=
  match calls with
  | [] => Some r
  | c :: rest =>
      match perform c r with
      | Some r' => run rest r'
      | None => None
      end
  end.

(** [nesting d calls]: the number of pushes still open after [calls], when
    [d] were open before; [None] when a pop has no push to match. *)
Fixpoint nesting (d : nat) (calls : list matrixCall) : option nat :=
  match calls with
  | [] => Some d
  | PushMatrix :: rest => nesting (S d) rest
  | PopMatrix :: rest =>
      match d with
      | O => None
      | S d' => nesting d' rest
      end
  | Transform _ :: rest => nesting d rest
  end.

(** A correctly bracketed sequence: every pop matches an earlier push and no
    push is left open. *)
Definition bracketed (calls : list matrixCall) : bool :=
  match nesting 0 calls with
  | Some O => true
  | _ => false
  end.

(** The renderer as an [ofBaseRenderer]; a rejected call leaves [None]. *)
Definition andThen (f : renderer -> option renderer) (r : option renderer)
  : option renderer :=
  match r with
  | Some s => f s
  | None => None
  end.

#[global] Instance model : Renderer.ofBaseRenderer (option renderer) := {|
  Renderer.draw_path := fun shape => andThen (fun r => Some (draw (PathPrimitive shape) r));
  Renderer.draw_mesh_using := fun mesh renderType c t n =>
    andThen (fun r => Some (draw (MeshPrimitive mesh renderType c t n) r));
  Renderer.setupScreenPerspective := fun w h fov n f =>
    andThen (fun r => Some (loadProjection (newPerspectiveMatrix w h fov n f) r));
  Renderer.setupScreenOrtho := fun w h n f =>
    andThen (fun r => Some (loadProjection (newOrthoMatrix w h n f) r));
  Renderer.pushMatrix := andThen (fun r => Some (pushMatrix r));
  Renderer.popMatrix := andThen popMatrix;
  Renderer.translate := fun x y z =>
    andThen (fun r => Some (transformMatrix (Translate x y z) r))
|}.

End WithMatrix.

Arguments stack M : clear implicits.
Arguments renderer M : clear implicits.
Arguments transform M : clear implicits.
Arguments matrixCall M : clear implicits.

(** A matrix as the product of the elementary matrices it was built from. *)
Inductive factor : Type :=
| Translation (x y z : float)
| Scaling (x y z : float)
| Rotation (degrees x y z : float)
| Perspective (width height fov nearDist farDist : float)
| Ortho (width height nearDist farDist : float).

Definition product : Type := list factor.

#[global] Instance products : ofMatrix4x4_ops product := {|
  newIdentityMatrix := [];
  newTranslationMatrix := fun x y z => [Translation x y z];
  newScaleMatrix := fun x y z => [Scaling x y z];
  newRotationMatrix := fun d x y z => [Rotation d x y z];
  newPerspectiveMatrix := fun w h fov n f => [Perspective w h fov n f];
  newOrthoMatrix := fun w h n f => [Ortho w h n f];
  matrix_mult := fun a b => a ++ b
|}.

(** A correctly bracketed sequence with a nested pair and transforms at
    every level, and calls made before it. *)
Definition nestedCalls : list (matrixCall product) :=
  [ Transform (Translate (CFloat.of_Z 100) (CFloat.of_Z 50) (CFloat.of_Z 0));
    PushMatrix;
    Transform (RotateDeg (CFloat.of_Z 90));
    PushMatrix;
    Transform LoadIdentityMatrix;
    PopMatrix;
    Transform (Scale (CFloat.of_Z 2) (CFloat.of_Z 2) (CFloat.of_Z 1));
    PopMatrix;
    Transform (RotateX (CFloat.of_Z 30)) ].

Definition callsBefore : list (matrixCall product) :=
  [ Transform (Scale (CFloat.of_Z 3) (CFloat.of_Z 3) (CFloat.of_Z 3)); PushMatrix ].

End MatrixStack.

(** * Properties *)

(** ** ofBaseDraws *)

Section DrawsFacts.

Import Draws.

Variable Canvas : Type.

(** In a class that inherits [draw(x, y, w, h)], the call never returns: the
    body calls the method it is the body of. *)
Lemma inherited_draw_xywh_never_returns :
  forall (this : ofBaseDraws Canvas),
    overrides_draw_xywh this = None ->
    forall fuel x y w h c, draw_xywh fuel this x y w h c = None.
Proof.
  intros this Hnone fuel.
  induction fuel as [| fuel IH]; intros x y w h c; simpl; rewrite Hnone.
  - reflexivity.
  - apply IH.
Qed.

(** In a class that overrides it, the call returns what the override renders. *)
Lemma overridden_draw_xywh_returns :
  forall (this : ofBaseDraws Canvas) body,
    overrides_draw_xywh this = Some body ->
    forall fuel x y w h c, draw_xywh fuel this x y w h c = Some (body x y w h c).
Proof.
  intros this body Hsome fuel x y w h c.
  destruct fuel; simpl; rewrite Hsome; reflexivity.
Qed.

(** The inherited body passes on neither [w] nor [h]. *)
Lemma inherited_draw_xywh_ignores_size :
  forall (this : ofBaseDraws Canvas),
    overrides_draw_xywh this = None ->
    forall fuel x y w h w' h' c,
      draw_xywh (S fuel) this x y w h c = draw_xywh (S fuel) this x y w' h' c.
Proof.
  intros this Hnone fuel x y w h w' h' c. simpl. rewrite Hnone. reflexivity.
Qed.

(** C6: the inherited [draw(point)], [draw(rect)] and [draw(point, w, h)] are
    the coordinate-wise calls [draw(point.x, point.y)],
    [draw(rect.x, rect.y, rect.width, rect.height)] and
    [draw(point.x, point.y, w, h)]. *)
Theorem convenience_draws_are_coordinate_draws :
  forall (this : ofBaseDraws Canvas) (fuel : nat) (point : ofPoint) (rect : ofRectangle)
         (w h : float) (c : Canvas),
    draw_point this point c = draw_xy this (vx point) (vy point) c /\
    draw_rect fuel this rect c =
      draw_xywh fuel this (rect_x rect) (rect_y rect) (rect_width rect) (rect_height rect) c /\
    draw_point_wh fuel this point w h c = draw_xywh fuel this (vx point) (vy point) w h c.
Proof.
  intros this fuel point rect w h c.
  unfold draw_point, draw_rect, draw_point_wh.
  repeat split.
Qed.

End DrawsFacts.

(** C1: [draw(x, y, w, h)] on an object that inherits the body of
    [ofBaseDraws] should return, having rendered the object at (x, y) with
    width w and height h.  On the 640 by 480 image, [draw(0, 0, 320, 240)]
    returns at no call depth, so nothing is rendered. *)
Theorem inherited_draw_xywh_on_plainImage :
  forall fuel : nat,
    Draws.draw_xywh fuel Draws.plainImage
      (CFloat.of_Z 0) (CFloat.of_Z 0) (CFloat.of_Z 320) (CFloat.of_Z 240) [] = None.
Proof.
  intro fuel.
  apply inherited_draw_xywh_never_returns.
  reflexivity.
Qed.

(** The class that overrides the method renders the requested size. *)
Example overridden_draw_xywh_on_scalableImage :
  Draws.draw_xywh 0 Draws.scalableImage
    (CFloat.of_Z 0) (CFloat.of_Z 0) (CFloat.of_Z 320) (CFloat.of_Z 240) []
  = Some [(CFloat.of_Z 0, CFloat.of_Z 0, CFloat.of_Z 320, CFloat.of_Z 240)].
Proof. reflexivity. Qed.

(** ** Video grabbers and players *)

(** C8: the inherited [getTexturePtr()] of a grabber and of a player return
    [nullptr] in every state, by an ordinary return, and leave the object as
    it was. *)
Theorem getTexturePtr_returns_nullptr :
  forall (G P : Type) (grabber : G) (player : P),
    Video.ofBaseVideoGrabber_getTexturePtr grabber = Returned (nullptr, grabber) /\
    Video.ofBaseVideoPlayer_getTexturePtr player = Returned (nullptr, player).
Proof.
  intros G P grabber player. split; reflexivity.
Qed.

(** The inherited [isInitialized()] is [isLoaded()], whatever the player. *)
Lemma isInitialized_isLoaded :
  forall (P : Type) (V : Video.ofBaseVideoPlayer P) (this : P),
    Video.isInitialized this = Video.isLoaded this.
Proof. reflexivity. Qed.

(** C7: a player that inherits [isInitialized()] answers it as it answers
    [isLoaded()]; and when [load(name)] on an unloaded player returns, both
    answers are the value it returned. *)
Theorem isInitialized_follows_load :
  (forall (P : Type) (V : Video.ofBaseVideoPlayer P) (this : P),
      Video.isInitialized this = Video.isLoaded this) /\
  (forall (name : string) (found : PlayerModel.resource),
      exists p' : PlayerModel.player,
        PlayerModel.load name found PlayerModel.Unloaded
          = Some (PlayerModel.loadSucceeds found, p') /\
        Video.isLoaded p' = PlayerModel.loadSucceeds found /\
        Video.isInitialized p' = PlayerModel.loadSucceeds found).
Proof.
  split.
  - intros P V this. apply isInitialized_isLoaded.
  - intros name found. exists (PlayerModel.opened found).
    destruct found as [n |]; repeat split.
Qed.

(** ** The bodies of ofBaseRenderer *)

Section RendererFacts.

Import Renderer.

(** C2: [draw(mesh, renderType)] is one call of the fully specified
    overload, with the three flags read from the mesh; the recording
    renderer receives that call and no other. *)
Theorem draw_mesh_forwards_once :
  forall (mesh : ofMesh) (renderType : ofPolyRenderMode),
    (forall (R : Type) (V : ofBaseRenderer R) (this : R),
        draw_mesh mesh renderType this =
        draw_mesh_using mesh renderType
          (usingColors mesh) (usingTextures mesh) (usingNormals mesh) this) /\
    (forall log : list call,
        draw_mesh mesh renderType log =
        log ++ [Call_draw_mesh_using mesh renderType
                  (usingColors mesh) (usingTextures mesh) (usingNormals mesh)]).
Proof.
  intros mesh renderType. split.
  - intros R V this. reflexivity.
  - intro log. reflexivity.
Qed.

(** C10: with no arguments, [setupScreenPerspective()] passes near and far
    distances 0, and [setupScreenOrtho()] passes -1 and 1, neither of which
    is 0. *)
Theorem no_argument_screen_setups :
  (forall (R : Type) (V : ofBaseRenderer R) (this : R),
      call_setupScreenPerspective [] this =
        setupScreenPerspective (CFloat.of_Z (-1)) (CFloat.of_Z (-1)) (CFloat.of_Z 60)
          (CFloat.of_Z 0) (CFloat.of_Z 0) this /\
      call_setupScreenOrtho [] this =
        setupScreenOrtho (CFloat.of_Z (-1)) (CFloat.of_Z (-1))
          (CFloat.of_Z (-1)) (CFloat.of_Z 1) this) /\
  (forall log : list call,
      call_setupScreenPerspective [] log =
        log ++ [Call_setupScreenPerspective (CFloat.of_Z (-1)) (CFloat.of_Z (-1))
                  (CFloat.of_Z 60) (CFloat.of_Z 0) (CFloat.of_Z 0)] /\
      call_setupScreenOrtho [] log =
        log ++ [Call_setupScreenOrtho (CFloat.of_Z (-1)) (CFloat.of_Z (-1))
                  (CFloat.of_Z (-1)) (CFloat.of_Z 1)]) /\
  CFloat.eqb (CFloat.of_Z (-1)) (CFloat.of_Z 0) = false /\
  CFloat.eqb (CFloat.of_Z 1) (CFloat.of_Z 0) = false.
Proof.
  split; [| split; [| split]].
  - intros R V this. split; reflexivity.
  - intro log. split; reflexivity.
  - vm_compute. reflexivity.
  - vm_compute. reflexivity.
Qed.

End RendererFacts.

(** ** The matrix stack *)

Section MatrixStackFacts.

Import MatrixStack.

Context {M : Type} {ops : ofMatrix4x4_ops M}.

Lemma stackRun_app :
  forall (a b : list (matrixCall M)) (s : stack M),
    stackRun (a ++ b) s =
    match stackRun a s with
    | Some s' => stackRun b s'
    | None => None
    end.
Proof.
  induction a as [| c a IH]; intros b s; simpl.
  - reflexivity.
  - destruct (stackCall c s) as [s' |]; [apply IH | reflexivity].
Qed.

(** While [d] pushes are open, the calls work on the [d] entries they pushed
    and on the current matrix; what lies beneath is not touched. *)
Lemma nesting_stackRun :
  forall (calls : list (matrixCall M)) (d d' : nat) (t : M) (pushed below : list M),
    nesting d calls = Some d' ->
    List.length pushed = d ->
    exists t' pushed',
      stackRun calls {| top := t; saved := pushed ++ below |}
        = Some {| top := t'; saved := pushed' ++ below |} /\
      List.length pushed' = d'.
Proof.
  induction calls as [| c calls IH]; intros d d' t pushed below Hn Hlen; simpl in Hn.
  - inversion Hn; subst. exists t, pushed. split; reflexivity.
  - destruct c as [| | tr].
    + destruct (IH (S d) d' t (t :: pushed) below Hn) as (t' & pushed' & Hrun & Hlen').
      { simpl. now rewrite Hlen. }
      exists t', pushed'. split; [exact Hrun | exact Hlen'].
    + destruct d as [| d0]; [discriminate |].
      destruct pushed as [| m pushed0]; [discriminate |].
      simpl in Hlen. injection Hlen as Hlen.
      destruct (IH d0 d' m pushed0 below Hn Hlen) as (t' & pushed' & Hrun & Hlen').
      exists t', pushed'. split; [exact Hrun | exact Hlen'].
    + destruct (IH d d' (transformed tr t) pushed below Hn Hlen)
        as (t' & pushed' & Hrun & Hlen').
      exists t', pushed'. split; [exact Hrun | exact Hlen'].
Qed.

(** A bracketed sequence leaves the saved entries as they were. *)
Lemma bracketed_stackRun :
  forall (calls : list (matrixCall M)) (s : stack M),
    bracketed calls = true ->
    exists t', stackRun calls s = Some {| top := t'; saved := saved s |}.
Proof.
  intros calls [t below] Hb. unfold bracketed in Hb.
  destruct (nesting 0 calls) as [[| d'] |] eqn:Hn; try discriminate.
  destruct (nesting_stackRun calls t [] below Hn eq_refl) as (t' & pushed' & Hrun & Hlen).
  destruct pushed'; [| discriminate].
  exists t'. exact Hrun.
Qed.

(** Push, a bracketed sequence, pop: the stack is as it was. *)
Lemma push_bracketed_pop :
  forall (inner : list (matrixCall M)) (s : stack M),
    bracketed inner = true ->
    stackRun (PushMatrix :: inner ++ [PopMatrix]) s = Some s.
Proof.
  intros inner [t below] Hb.
  change (stackRun (PushMatrix :: inner ++ [PopMatrix]) {| top := t; saved := below |})
    with (stackRun (inner ++ [PopMatrix]) {| top := t; saved := t :: below |}).
  rewrite stackRun_app.
  destruct (bracketed_stackRun inner {| top := t; saved := t :: below |} Hb) as (t' & Hrun).
  rewrite Hrun. reflexivity.
Qed.

Lemma currentMode_withStack :
  forall mode (s : stack M) (r : renderer M),
    currentMode (withStack mode s r) = currentMode r.
Proof. intros [] s r; reflexivity. Qed.

Lemma stackOf_withStack_same :
  forall mode (s : stack M) (r : renderer M), stackOf mode (withStack mode s r) = s.
Proof. intros [] s r; reflexivity. Qed.

Lemma withStack_withStack :
  forall mode (s1 s2 : stack M) (r : renderer M),
    withStack mode s2 (withStack mode s1 r) = withStack mode s2 r.
Proof. intros [] s1 s2 r; reflexivity. Qed.

Lemma withStack_stackOf :
  forall mode (r : renderer M), withStack mode (stackOf mode r) r = r.
Proof. intros [] [m mv pj tx out]; reflexivity. Qed.

(** The matrix calls act on the stack of the mode last selected, and on
    nothing else. *)
Lemma perform_on_current_stack :
  forall (c : matrixCall M) (r : renderer M),
    perform c r =
    match stackCall c (currentStack r) with
    | Some s => Some (withStack (currentMode r) s r)
    | None => None
    end.
Proof.
  intros [| | t] r; reflexivity.
Qed.

Lemma run_on_current_stack :
  forall (calls : list (matrixCall M)) (r : renderer M),
    run calls r =
    match stackRun calls (currentStack r) with
    | Some s => Some (withStack (currentMode r) s r)
    | None => None
    end.
Proof.
  induction calls as [| c calls IH]; intro r; simpl.
  - unfold currentStack. now rewrite withStack_stackOf.
  - rewrite perform_on_current_stack.
    destruct (stackCall c (currentStack r)) as [s |]; [| reflexivity].
    rewrite IH. unfold currentStack.
    rewrite currentMode_withStack, stackOf_withStack_same.
    destruct (stackRun calls s) as [s' |]; [| reflexivity].
    now rewrite withStack_withStack.
Qed.

Lemma run_app :
  forall (a b : list (matrixCall M)) (r : renderer M),
    run (a ++ b) r =
    match run a r with
    | Some r' => run b r'
    | None => None
    end.
Proof.
  induction a as [| c a IH]; intros b r; simpl.
  - reflexivity.
  - destruct (perform c r) as [r' |]; [apply IH | reflexivity].
Qed.

Lemma depth_stackOf_withStack :
  forall mode mode' (s : stack M) (r : renderer M),
    saved s = saved (stackOf mode r) ->
    depth (stackOf mode' (withStack mode s r)) = depth (stackOf mode' r).
Proof.
  intros mode mode' s r Hs. unfold depth.
  destruct mode, mode'; simpl in *; try reflexivity; now rewrite Hs.
Qed.

Lemma run_push_bracketed_pop :
  forall (inner : list (matrixCall M)) (r : renderer M),
    bracketed inner = true ->
    run (PushMatrix :: inner ++ [PopMatrix]) r = Some r.
Proof.
  intros inner r Hb.
  rewrite run_on_current_stack, (push_bracketed_pop inner (currentStack r) Hb).
  unfold currentStack. now rewrite withStack_stackOf.
Qed.

(** C5: a correctly bracketed sequence of [pushMatrix()], [popMatrix()] and
    transform calls runs to its end and leaves every matrix stack at the
    depth it had; and the [popMatrix()] that closes a bracketed sequence
    opened by a [pushMatrix()] puts the renderer, its current matrix
    included, back as it was when that [pushMatrix()] was called. *)
Theorem bracketed_matrix_calls_restore :
  forall inner : list (matrixCall M),
    bracketed inner = true ->
    (forall r : renderer M,
        exists r', run inner r = Some r' /\
                   forall mode, depth (stackOf mode r') = depth (stackOf mode r)) /\
    (forall (before : list (matrixCall M)) (r atPush : renderer M),
        run before r = Some atPush ->
        exists afterPop,
          run (before ++ PushMatrix :: inner ++ [PopMatrix]) r = Some afterPop /\
          afterPop = atPush /\
          forall mode, getCurrentMatrix mode afterPop = getCurrentMatrix mode atPush).
Proof.
  intros inner Hb. split.
  - intro r. rewrite run_on_current_stack.
    destruct (bracketed_stackRun inner (currentStack r) Hb) as (t' & Hrun).
    rewrite Hrun. eexists. split; [reflexivity |].
    intro mode. apply depth_stackOf_withStack. reflexivity.
  - intros before r atPush Hbefore.
    exists atPush. split; [| split; reflexivity].
    rewrite run_app, Hbefore. apply run_push_bracketed_pop, Hb.
Qed.

(** C3: [draw(shape, x, y)] is [pushMatrix()], [translate(x, y)],
    [draw(shape)], [popMatrix()], in that order.  On the matrix stacks it
    returns with the matrix mode and every stack, hence the depth and the
    current matrix, as they were; the one change is the shape handed to the
    backend under the translated matrix. *)
Theorem draw_path_at_is_bracketed :
  forall (shape : ofPath) (x y : float),
    (forall (R : Type) (V : Renderer.ofBaseRenderer R) (this : R),
        Renderer.draw_path_at shape x y this =
        Renderer.popMatrix
          (Renderer.draw_path shape
             (Renderer.translate x y (CFloat.of_Z 0) (Renderer.pushMatrix this)))) /\
    (forall log : list Renderer.call,
        Renderer.draw_path_at shape x y log =
        log ++ [Renderer.Call_pushMatrix; Renderer.Call_translate x y (CFloat.of_Z 0);
                Renderer.Call_draw_path shape; Renderer.Call_popMatrix]) /\
    (forall r : renderer M,
        let translated := transformMatrix (Translate x y (CFloat.of_Z 0)) r in
        Renderer.draw_path_at shape x y (Some r) =
        Some {| currentMode := currentMode r;
                modelview := modelview r;
                projection := projection r;
                texture := texture r;
                output := {| what := PathPrimitive shape;
                             modelviewThen := top (modelview translated);
                             projectionThen := top (projection translated) |}
                          :: output r |}).
Proof.
  intros shape x y. split; [| split].
  - intros R V this. reflexivity.
  - intro log. unfold Renderer.draw_path_at. simpl. unfold Renderer.received.
    repeat rewrite <- app_assoc. reflexivity.
  - intros [mode [mt ms] [pt ps] [tt ts] out] translated. subst translated.
    destruct mode; reflexivity.
Qed.

End MatrixStackFacts.

(** ** The video player *)

Section PlayerFacts.

Import PlayerModel.

Local Open Scope Z_scope.

Lemma clamp_range : forall last target, 0 <= last -> 0 <= clamp last target <= last.
Proof. intros last target Hlast. unfold clamp. lia. Qed.

Lemma wrap_range : forall last target, 0 <= last -> 0 <= wrap last target <= last.
Proof.
  intros last target Hlast. unfold wrap.
  assert (Hpos : 0 < last + 1) by lia.
  pose proof (Z.mod_pos_bound target (last + 1) Hpos) as Hmod. lia.
Qed.

Lemma fold_range : forall last u, 0 <= last -> 0 <= fst (fold last u) <= last.
Proof.
  intros last u Hlast. unfold fold.
  destruct (last <=? 0) eqn:Hz.
  - simpl. lia.
  - apply Z.leb_gt in Hz.
    assert (Hpos : 0 < 2 * last) by lia.
    pose proof (Z.mod_pos_bound u (2 * last) Hpos) as Hmod.
    destruct (u mod (2 * last) <=? last) eqn:Hr; cbn [fst].
    + apply Z.leb_le in Hr. lia.
    + apply Z.leb_gt in Hr. lia.
Qed.

Lemma seekFrame_range :
  forall t target, 0 <= lastFrame t -> 0 <= seekFrame t target <= lastFrame t.
Proof.
  intros t target Hlast. unfold seekFrame.
  destruct (loopState t);
    [apply clamp_range | apply fold_range | apply wrap_range]; exact Hlast.
Qed.

Lemma seek_onAFrame : forall t target, onAFrame t -> onAFrame (seek t target).
Proof.
  intros t target Ht. unfold onAFrame in *. cbn [seek frame lastFrame].
  apply seekFrame_range. lia.
Qed.

Lemma advance_onAFrame : forall t dt, onAFrame t -> onAFrame (advance t dt).
Proof.
  intros t dt Ht. unfold onAFrame in *. unfold advance.
  destruct (loopState t); cbn [frame lastFrame];
    [apply clamp_range | apply fold_range | apply wrap_range]; lia.
Qed.

Lemma onLoaded_onAFrame : forall o t, onAFrame t -> onAFrame (onLoaded o t).
Proof.
  intros o t Ht.
  destruct o; simpl; try exact Ht; try (apply seek_onAFrame; exact Ht).
  - unfold onAFrame in *. cbn [frame lastFrame]. lia.
  - destruct (mode t); [apply advance_onAFrame |]; exact Ht.
Qed.

Lemma opened_wellFormed : forall found, wellFormed (opened found).
Proof.
  intros [n |]; [| exact I].
  unfold wellFormed, opened, onAFrame, freshlyLoaded. cbn [frame lastFrame]. lia.
Qed.

Lemma step_wellFormed :
  forall o p p', wellFormed p -> step o p = Some p' -> wellFormed p'.
Proof.
  intros o p p' Hp Hstep.
  destruct p as [| name | t].
  - destruct o; simpl in Hstep; try discriminate; injection Hstep as <-;
      try exact I; apply opened_wellFormed.
  - destruct o; simpl in Hstep; try discriminate; injection Hstep as <-;
      try exact I; apply opened_wellFormed.
  - assert (Hcases : p' = Unloaded \/ p' = Loaded (onLoaded o t)).
    { destruct o; simpl in Hstep; try discriminate; injection Hstep as <-;
        [right; reflexivity .. | left; reflexivity]. }
    destruct Hcases as [-> | ->]; [exact I |].
    apply (onLoaded_onAFrame o Hp).
Qed.

Lemma run_wellFormed :
  forall ops p p', wellFormed p -> run ops p = Some p' -> wellFormed p'.
Proof.
  induction ops as [| o ops IH]; intros p p' Hp Hrun; simpl in Hrun.
  - injection Hrun as <-. exact Hp.
  - destruct (step o p) as [p1 |] eqn:Hstep; [| discriminate].
    apply (IH p1 p'); [apply (step_wellFormed o p Hp Hstep) | exact Hrun].
Qed.

Lemma wellFormed_position :
  forall p, wellFormed p -> (0 <= getPosition p)%Q /\ (getPosition p <= 1)%Q.
Proof.
  intros [| name | t] Hp; simpl; try (split; discriminate).
  unfold wellFormed, onAFrame in Hp.
  destruct (lastFrame t <=? 0) eqn:Hz; [split; discriminate |].
  apply Z.leb_gt in Hz.
  split; unfold Qle; cbn [Qnum Qden]; rewrite ?Z2Pos.id by exact Hz; lia.
Qed.

(** C9: in every state a player reaches from creation by loading, playing,
    pausing, stopping, seeking, updating, closing and changing speed, loop
    mode or volume, [getPosition()] is between 0 and 1. *)
Theorem getPosition_between_0_and_1 :
  forall (ops : list op) (p : player),
    run ops Unloaded = Some p ->
    (0 <= getPosition p)%Q /\ (getPosition p <= 1)%Q.
Proof.
  intros ops p Hrun.
  apply wellFormed_position.
  apply (run_wellFormed ops Unloaded); [exact I | exact Hrun].
Qed.

Lemma player_run_app :
  forall a b p,
    run (a ++ b) p =
    match run a p with
    | Some p' => run b p'
    | None => None
    end.
Proof.
  induction a as [| o a IH]; intros b p; simpl.
  - reflexivity.
  - destruct (step o p) as [p' |]; [apply IH | reflexivity].
Qed.

(** Transport operations keep a loaded player loaded. *)
Lemma transport_ops_keep_loaded :
  forall ops t,
    forallb transportOp ops = true ->
    exists t', run ops (Loaded t) = Some (Loaded t').
Proof.
  induction ops as [| o ops IH]; intros t Hall; simpl in *.
  - exists t. reflexivity.
  - apply andb_true_iff in Hall as [Ho Hall].
    assert (Hstep : step o (Loaded t) = Some (Loaded (onLoaded o t)))
      by (destruct o; try discriminate Ho; reflexivity).
    rewrite Hstep. apply IH, Hall.
Qed.

(** C4: on a loaded player, [play()], then any seeks, updates and other
    transport operations, then [stop()], leave the player loaded, not
    playing, with [getPosition()] equal to 0. *)
Theorem play_then_stop_resets :
  forall (t : transport) (between : list op),
    forallb transportOp between = true ->
    exists p : player,
      run (Play :: between ++ [Stop]) (Loaded t) = Some p /\
      (getPosition p == 0)%Q /\
      Video.isPlaying p = false /\
      Video.isLoaded p = true /\
      Video.isPaused p = true.
Proof.
  intros t between Hall.
  destruct (transport_ops_keep_loaded between (onLoaded Play t) Hall) as (t' & Hrun).
  exists (Loaded (onLoaded Stop t')). split.
  - change (run (Play :: between ++ [Stop]) (Loaded t))
      with (run (between ++ [Stop]) (Loaded (onLoaded Play t))).
    rewrite player_run_app, Hrun. reflexivity.
  - repeat split. simpl.
    destruct (lastFrame t' <=? 0); reflexivity.
Qed.

End PlayerFacts.

(** ** The properties on concrete runs *)

Lemma bracketed_matrix_calls_restore_witness :
  MatrixStack.bracketed MatrixStack.nestedCalls = true /\
  (exists r',
      MatrixStack.run MatrixStack.nestedCalls MatrixStack.newRenderer = Some r' /\
      forall mode,
        MatrixStack.depth (MatrixStack.stackOf mode r') =
        MatrixStack.depth (MatrixStack.stackOf mode MatrixStack.newRenderer)) /\
  (exists atPush,
      MatrixStack.run MatrixStack.callsBefore MatrixStack.newRenderer = Some atPush /\
      exists afterPop,
        MatrixStack.run
          (MatrixStack.callsBefore ++
           MatrixStack.PushMatrix :: MatrixStack.nestedCalls ++ [MatrixStack.PopMatrix])
          MatrixStack.newRenderer = Some afterPop /\
        afterPop = atPush /\
        forall mode,
          MatrixStack.getCurrentMatrix mode afterPop =
          MatrixStack.getCurrentMatrix mode atPush).
Proof.
  split; [reflexivity |].
  split.
  - apply (proj1 (bracketed_matrix_calls_restore MatrixStack.nestedCalls eq_refl)).
  - eexists. split; [reflexivity |].
    apply (proj2 (bracketed_matrix_calls_restore MatrixStack.nestedCalls eq_refl)
             MatrixStack.callsBefore MatrixStack.newRenderer).
    reflexivity.
Defined.

Lemma getPosition_between_0_and_1_witness :
  exists p,
    PlayerModel.run PlayerModel.session PlayerModel.Unloaded = Some p /\
    (0 <= PlayerModel.getPosition p)%Q /\ (PlayerModel.getPosition p <= 1)%Q.
Proof.
  eexists. split; [vm_compute; reflexivity |].
  apply (getPosition_between_0_and_1 PlayerModel.session).
  vm_compute. reflexivity.
Defined.

Lemma play_then_stop_resets_witness :
  forallb PlayerModel.transportOp PlayerModel.scrubbing = true /\
  exists p,
    PlayerModel.run (PlayerModel.Play :: PlayerModel.scrubbing ++ [PlayerModel.Stop])
      (PlayerModel.Loaded PlayerModel.midClip) = Some p /\
    (PlayerModel.getPosition p == 0)%Q /\
    Video.isPlaying p = false /\
    Video.isLoaded p = true /\
    Video.isPaused p = true.
Proof.
  split; [reflexivity |].
  apply (play_then_stop_resets PlayerModel.midClip PlayerModel.scrubbing).
  reflexivity.
Defined.

(** * Further properties of the bodies in the header *)

(** ** ofBaseDraws: which draw calls return *)

Section DrawsFurther.

Import Draws.

Variable Canvas : Type.


(** On an object that inherits [draw(x, y, w, h)], the inherited
    [draw(rect)] and [draw(point, w, h)] do not return either, whatever the
    rectangle, the point and the size. *)
Theorem inherited_convenience_draws_never_return :
  forall (this : ofBaseDraws Canvas),
    overrides_draw_xywh this = None ->
    forall (fuel : nat) (rect : ofRectangle) (point : ofPoint) (w h : float) (c : Canvas),
      draw_rect fuel this rect c = None /\
      draw_point_wh fuel this point w h c = None.
Proof.
  intros this Ho fuel rect point w h c. unfold draw_rect, draw_point_wh.
  split; apply inherited_draw_xywh_never_returns; exact Ho.
Qed.

(** On an object whose class overrides [draw(x, y, w, h)], the inherited
    [draw(rect)] and [draw(point, w, h)] return what the override renders at
    the rectangle's position and size, and at the point with the size given;
    the call depth allowed makes no difference. *)
Theorem overridden_convenience_draws_render :
  forall (this : ofBaseDraws Canvas) body,
    overrides_draw_xywh this = Some body ->
    forall (fuel : nat) (rect : ofRectangle) (point : ofPoint) (w h : float) (c : Canvas),
      draw_rect fuel this rect c =
        Some (body (rect_x rect) (rect_y rect) (rect_width rect) (rect_height rect) c) /\
      draw_point_wh fuel this point w h c = Some (body (vx point) (vy point) w h c).
Proof.
  intros this body Ho fuel rect point w h c. unfold draw_rect, draw_point_wh.
  split; apply overridden_draw_xywh_returns; exact Ho.
Qed.

Lemma anchoredAll_unchanged :
  forall (calls : list anchorCall) (this : ofBaseDraws Canvas),
    anchoredAll calls this = this.
Proof.
  unfold anchoredAll.
  induction calls as [| a calls IH]; intro this; simpl.
  - reflexivity.
  - destruct a; apply IH.
Qed.

(** On an object that inherits the anchor setters, no sequence of
    [setAnchorPercent], [setAnchorPoint] and [resetAnchor] calls changes the
    object: its size and what each draw call does afterwards are what they
    were before. *)
Theorem inherited_anchor_calls_are_absorbed :
  forall (calls : list anchorCall) (this : ofBaseDraws Canvas),
    anchoredAll calls this = this /\
    getWidth (anchoredAll calls this) = getWidth this /\
    getHeight (anchoredAll calls this) = getHeight this /\
    (forall point c, draw_point (anchoredAll calls this) point c = draw_point this point c) /\
    (forall fuel x y w h c,
        draw_xywh fuel (anchoredAll calls this) x y w h c = draw_xywh fuel this x y w h c).
Proof.
  intros calls this. rewrite anchoredAll_unchanged. repeat split.
Qed.

End DrawsFurther.

(** ** ofBaseRenderer: sequences of the inherited draws *)

Section RendererFurther.

Import Renderer.

Lemma openPushes_app :
  forall (a b : list call) (d : nat),
    openPushes d (a ++ b) =
    match openPushes d a with
    | Some d' => openPushes d' b
    | None => None
    end.
Proof.
  induction a as [| c a IH]; intros b d; simpl.
  - reflexivity.
  - destruct c; try apply IH.
    destruct d as [| d']; [reflexivity | apply IH].
Qed.

(** What a request adds to the log does not depend on the log. *)
Lemma serve_recorded :
  forall (q : request) (log : list call), serve q log = log ++ serve q [].
Proof.
  intros [shape x y | mesh renderType] log; simpl.
  - unfold draw_path_at. simpl. unfold received. simpl.
    repeat rewrite <- app_assoc. reflexivity.
  - reflexivity.
Qed.

Lemma serveAll_cons :
  forall (R : Type) (V : ofBaseRenderer R) (q : request) (qs : list request) (this : R),
    serveAll (q :: qs) this = serveAll qs (serve q this).
Proof. reflexivity. Qed.


Lemma serve_keeps_openPushes :
  forall (q : request) (d : nat), openPushes d (serve q []) = Some d.
Proof. intros [shape x y | mesh renderType] d; reflexivity. Qed.

(** The inherited [draw(shape, x, y)] and [draw(mesh, renderType)] keep the
    matrix calls balanced: after any sequence of them, the [pushMatrix]
    calls left open in the calls the renderer has received are those that
    were open before, and no [popMatrix] lacks its [pushMatrix]. *)
Theorem inherited_draws_keep_pushes_balanced :
  forall (requests : list request) (log : list call) (d d' : nat),
    openPushes d log = Some d' ->
    openPushes d (serveAll requests log) = Some d'.
Proof.
  induction requests as [| q qs IH]; intros log d d' Hlog.
  - exact Hlog.
  - rewrite serveAll_cons. apply IH.
    rewrite serve_recorded, openPushes_app, Hlog.
    apply serve_keeps_openPushes.
Qed.

Lemma serve_draws :
  forall q : request, filter isDraw (serve q []) = [requestedDraw q].
Proof. intros [shape x y | mesh renderType]; reflexivity. Qed.

Lemma serve_translates :
  forall q : request, filter isTranslate (serve q []) = requestedOffset q.
Proof. intros [shape x y | mesh renderType]; reflexivity. Qed.

(** Each request reaches the backend as one draw call, in the order of the
    requests, with the shape or the mesh and its own flags; and the only
    translations issued are those of the [draw(shape, x, y)] requests, in
    order, each by [(x, y, 0)]. *)
Theorem inherited_draws_forward_in_order :
  forall (requests : list request) (log : list call),
    filter isDraw (serveAll requests log) =
      filter isDraw log ++ map requestedDraw requests /\
    filter isTranslate (serveAll requests log) =
      filter isTranslate log ++ flat_map requestedOffset requests.
Proof.
  induction requests as [| q qs IH]; intro log.
  - simpl. now rewrite !app_nil_r.
  - rewrite serveAll_cons.
    destruct (IH (serve q log)) as [Hd Ht]. rewrite Hd, Ht.
    rewrite (serve_recorded q log), !filter_app, serve_draws, serve_translates.
    simpl. now rewrite <- !app_assoc.
Qed.




(** A call of a screen setup passes the arguments written at the call, in
    their positions, and the declared defaults for the parameters left out:
    up to five arguments for [setupScreenPerspective], up to four for
    [setupScreenOrtho]. *)
Theorem screen_setups_complete_their_arguments :
  forall (R : Type) (V : ofBaseRenderer R) (given : list float) (this : R),
    ((List.length given <= 5)%nat ->
     exists width height fov nearDist farDist,
       completed given perspectiveDefaults = [width; height; fov; nearDist; farDist] /\
       call_setupScreenPerspective given this =
         setupScreenPerspective width height fov nearDist farDist this) /\
    ((List.length given <= 4)%nat ->
     exists width height nearDist farDist,
       completed given orthoDefaults = [width; height; nearDist; farDist] /\
       call_setupScreenOrtho given this =
         setupScreenOrtho width height nearDist farDist this).
Proof.
  intros R V given this. split; intro Hlen.
  - destruct given as [| a0 [| a1 [| a2 [| a3 [| a4 [| a5 rest]]]]]];
      try (simpl in Hlen; lia);
      do 5 eexists; split; reflexivity.
  - destruct given as [| a0 [| a1 [| a2 [| a3 [| a4 rest]]]]];
      try (simpl in Hlen; lia);
      do 4 eexists; split; reflexivity.
Qed.

End RendererFurther.

(** ** The further properties on concrete runs *)


Lemma inherited_convenience_draws_never_return_witness :
  Draws.overrides_draw_xywh Draws.plainImage = None /\
  Draws.draw_rect 1000 Draws.plainImage
    (mkRectangle (CFloat.of_Z 10) (CFloat.of_Z 20) (CFloat.of_Z 320) (CFloat.of_Z 240)) []
    = None /\
  Draws.draw_point_wh 1000 Draws.plainImage
    (mkVec3f (CFloat.of_Z 10) (CFloat.of_Z 20) (CFloat.of_Z 0))
    (CFloat.of_Z 320) (CFloat.of_Z 240) [] = None.
Proof.
  split; [reflexivity |].
  apply (inherited_convenience_draws_never_return Draws.plainImage eq_refl).
Defined.

Lemma overridden_convenience_draws_render_witness :
  Draws.draw_rect 0 Draws.scalableImage
    (mkRectangle (CFloat.of_Z 10) (CFloat.of_Z 20) (CFloat.of_Z 320) (CFloat.of_Z 240)) []
    = Some [(CFloat.of_Z 10, CFloat.of_Z 20, CFloat.of_Z 320, CFloat.of_Z 240)] /\
  Draws.draw_point_wh 0 Draws.scalableImage
    (mkVec3f (CFloat.of_Z 10) (CFloat.of_Z 20) (CFloat.of_Z 0))
    (CFloat.of_Z 320) (CFloat.of_Z 240) []
    = Some [(CFloat.of_Z 10, CFloat.of_Z 20, CFloat.of_Z 320, CFloat.of_Z 240)].
Proof.
  apply (overridden_convenience_draws_render Draws.scalableImage eq_refl 0
           (mkRectangle (CFloat.of_Z 10) (CFloat.of_Z 20) (CFloat.of_Z 320) (CFloat.of_Z 240))
           (mkVec3f (CFloat.of_Z 10) (CFloat.of_Z 20) (CFloat.of_Z 0))
           (CFloat.of_Z 320) (CFloat.of_Z 240) []).
Defined.

Lemma inherited_draws_keep_pushes_balanced_witness :
  Renderer.openPushes 0 Renderer.sampleLog = Some 1%nat /\
  Renderer.openPushes 0 (Renderer.serveAll Renderer.sampleRequests Renderer.sampleLog)
    = Some 1%nat.
Proof.
  split; [reflexivity |].
  apply (inherited_draws_keep_pushes_balanced Renderer.sampleRequests Renderer.sampleLog 0).
  reflexivity.
Defined.

Lemma screen_setups_complete_their_arguments_witness :
  (List.length [CFloat.of_Z 800; CFloat.of_Z 600] <= 4)%nat /\
  (exists width height fov nearDist farDist,
      Renderer.completed [CFloat.of_Z 800; CFloat.of_Z 600] Renderer.perspectiveDefaults
        = [width; height; fov; nearDist; farDist] /\
      Renderer.call_setupScreenPerspective [CFloat.of_Z 800; CFloat.of_Z 600]
        ([] : list Renderer.call) =
      Renderer.setupScreenPerspective width height fov nearDist farDist []) /\
  (exists width height nearDist farDist,
      Renderer.completed [CFloat.of_Z 800; CFloat.of_Z 600] Renderer.orthoDefaults
        = [width; height; nearDist; farDist] /\
      Renderer.call_setupScreenOrtho [CFloat.of_Z 800; CFloat.of_Z 600]
        ([] : list Renderer.call) =
      Renderer.setupScreenOrtho width height nearDist farDist []).
Proof.
  assert (Hlen : (List.length [CFloat.of_Z 800; CFloat.of_Z 600] <= 4)%nat)
    by (simpl; lia).
  split; [exact Hlen |].
  split.
  - apply (proj1 (@screen_setups_complete_their_arguments _ Renderer.recorder
                    [CFloat.of_Z 800; CFloat.of_Z 600] [])).
    simpl. lia.
  - apply (proj2 (@screen_setups_complete_their_arguments _ Renderer.recorder
                    [CFloat.of_Z 800; CFloat.of_Z 600] [])).
    exact Hlen.
Defined.
